(** * Mean absolute deviation versus standard deviation

    A shallow embedding of the notebook [2-mean-absolute-deviation.ipynb]:
    the dispersion estimators [mad] and [scipy.stats.tstd], the normalised
    variance [get_efficiency], the two-component mixture sampler
    [two_norms] and the Monte Carlo driver [get_efficiency_sample].

    Numbers are numpy [float64] values with rounding, overflow and
    underflow left out: a real number, one of the two infinities, or NaN.
    The theorems stated about the notebook are those that do not lean on
    this: equalities whose evaluation on doubles is exact ([x - x],
    [1 * x + 0 * y], [0 / 0]), signs, lengths, and the order and
    arguments of the sampler calls.  The random number generator is the
    explicit state that scipy's samplers read and advance. *)

From Stdlib Require Import Reals List Lia Lra ZArith.
Import ListNotations.
Set Warnings "-abstract-large-number".
Open Scope R_scope.

(** ** Doubles without rounding *)

Module Float64.

Inductive t : Type :=
| Fin (r : R)
| PInf
| NInf
| NaN.

Definition sign (r : R) : comparison :=
  if Rlt_dec r 0 then Lt else if Rlt_dec 0 r then Gt else Eq.

Definition fneg (x : t) : t :=
  match x with
  | Fin r => Fin (- r)
  | PInf => NInf
  | NInf => PInf
  | NaN => NaN
  end.

Definition fadd (x y : t) : t :=
  match x, y with
  | NaN, _ | _, NaN => NaN
  | Fin a, Fin b => Fin (a + b)
  | PInf, NInf | NInf, PInf => NaN
  | PInf, _ | _, PInf => PInf
  | NInf, _ | _, NInf => NInf
  end.

Definition fsub (x y : t) : t := fadd x (fneg y).

(** An infinity [i] multiplied by a finite factor of sign [c]. *)
Definition scale_inf (c : comparison) (i : t) : t :=
  match c with
  | Eq => NaN
  | Gt => i
  | Lt => fneg i
  end.

Definition fmul (x y : t) : t :=
  match x, y with
  | NaN, _ | _, NaN => NaN
  | Fin a, Fin b => Fin (a * b)
  | Fin a, i => scale_inf (sign a) i
  | i, Fin b => scale_inf (sign b) i
  | PInf, PInf | NInf, NInf => PInf
  | PInf, NInf | NInf, PInf => NInf
  end.

(** Division follows numpy scalars: a zero divisor raises nothing, it gives
    NaN for [0 / 0] and an infinity otherwise.  The model has one zero,
    the positive one. *)
Definition fdiv (x y : t) : t :=
  match x, y with
  | NaN, _ | _, NaN => NaN
  | Fin a, Fin b =>
      if Req_dec_T b 0 then scale_inf (sign a) PInf else Fin (a / b)
  | Fin _, _ => Fin 0
  | i, Fin b => if Rlt_dec b 0 then fneg i else i
  | _, _ => NaN
  end.

Definition fabs (x : t) : t :=
  match x with
  | Fin r => Fin (Rabs r)
  | PInf | NInf => PInf
  | NaN => NaN
  end.

Definition fsqrt (x : t) : t :=
  match x with
  | Fin r => if Rlt_dec r 0 then NaN else Fin (sqrt r)
  | PInf => PInf
  | NInf | NaN => NaN
  end.

Fixpoint fpow (x : t) (n : nat) : t :=
  match n with
  | O => Fin 1
  | S k => fmul x (fpow x k)
  end.

(** [x <= y] on doubles; every comparison with NaN is false. *)
Definition fle (x y : t) : Prop :=
  match x, y with
  | NaN, _ | _, NaN => False
  | Fin a, Fin b => a <= b
  | NInf, _ | _, PInf => True
  | _, _ => False
  end.

Definition is_nan (x : t) : bool :=
  match x with NaN => true | _ => false end.

Definition of_int (k : Z) : t := Fin (IZR k).

End Float64.

Import Float64.

(** ** The numpy and scipy reductions the notebook calls *)

Definition ndarray := list Float64.t.

(** [np.asarray] of a sequence of finite doubles. *)
Definition asarray (xs : list R) : ndarray := map Fin xs.

Definition np_sum (a : ndarray) : Float64.t := fold_left fadd a (Fin 0).

(** [np.mean]: the sum divided by the number of items; on an empty array
    this is [0 / 0]. *)
Definition np_mean (a : ndarray) : Float64.t :=
  fdiv (np_sum a) (Fin (INR (length a))).

Definition np_abs (a : ndarray) : ndarray := map fabs a.

(** [a - m] with the scalar [m] broadcast over the array. *)
Definition sub_scalar (a : ndarray) (m : Float64.t) : ndarray :=
  map (fun x => fsub x m) a.

(** [np.var(a, ddof)]: the squared deviations from the mean, summed and
    divided by [max (n - ddof) 0]. *)
Definition np_var (a : ndarray) (ddof : nat) : Float64.t :=
  let arrmean := np_mean a in
  let x := sub_scalar a arrmean in
  let x := map (fun v => fmul v v) x in
  fdiv (np_sum x) (Fin (INR (length a - ddof))).

Definition np_sqrt (x : Float64.t) : Float64.t := Float64.fsqrt x.

(** [scipy.stats.tvar] and [scipy.stats.tstd] with their defaults: no
    limits, [ddof = 1]. *)
Definition tvar (a : ndarray) : Float64.t := np_var a 1.

Definition tstd (a : ndarray) : Float64.t := np_sqrt (tvar a).

(** ** The notebook's estimators *)

Definition mad (data : ndarray) : Float64.t :=
  let mean := np_mean data in
  let absolute_deviations := np_abs (sub_scalar data mean) in
  np_mean absolute_deviations.

Definition get_efficiency (data : ndarray) : Float64.t :=
  fdiv (np_var data 0) (fpow (np_mean data) 2).

(** ** The random state *)

(** A computation that reads and advances a state of type [S]. *)
Definition State (S A : Type) : Type := S -> A * S.

Definition ret {S A : Type} (a : A) : State S A := fun s => (a, s).

Definition bind {S A B : Type} (m : State S A) (k : A -> State S B)
  : State S B :=
  fun s => let (a, s') := m s in k a s'.

Notation "x <- m ;; k" := (bind m (fun x => k))
  (at level 61, m at next level, right associativity).

(** [[m for _ in range(n)]]: [n] runs of [m], one after the other. *)
Fixpoint replicateM {S A : Type} (n : nat) (m : State S A)
  : State S (list A) :=
  match n with
  | O => ret []
  | S k => x <- m ;; xs <- replicateM k m ;; ret (x :: xs)
  end.

(** The samplers of [scipy.stats] over a generator state [rng]:
    [norm_rvs loc scale size] is [scipy.stats.norm.rvs] and
    [binom_rvs n p size] is [scipy.stats.binom.rvs];
    [seed k] is the state [np.random.seed(k)] installs. *)
Class Sampler (rng : Type) : Type := {
  norm_rvs : R -> R -> nat -> State rng (list R);
  binom_rvs : Z -> R -> nat -> State rng (list Z);
  seed : Z -> rng
}.

(** What the notebook relies on: a sampler returns [size] draws, and a
    binomial whose success probability is 1 counts [n] successes. *)
Class SamplerContract (rng : Type) `{Sampler rng} : Prop := {
  norm_rvs_size : forall loc scale size g,
    length (fst (norm_rvs loc scale size g)) = size;
  binom_rvs_size : forall n p size g,
    length (fst (binom_rvs n p size g)) = size;
  binom_rvs_sure : forall n size g,
    fst (binom_rvs n 1 size g) = repeat n size
}.

(** ** Array arithmetic *)

(** An operator on two arrays of one shape, element by element.  Arrays
    of different lengths, on which numpy raises, are cut to the shorter;
    the notebook only combines arrays drawn with the same [size]. *)
Fixpoint zip_with (f : Float64.t -> Float64.t -> Float64.t)
  (xs ys : ndarray) : ndarray :=
  match xs, ys with
  | x :: xs', y :: ys' => f x y :: zip_with f xs' ys'
  | _, _ => []
  end.

Definition arr_add : ndarray -> ndarray -> ndarray := zip_with fadd.
Definition arr_mul : ndarray -> ndarray -> ndarray := zip_with fmul.

(** An integer array as it enters float arithmetic. *)
Definition int_array (i : list Z) : ndarray := map of_int i.

(** [k - i] with the integer [k] broadcast over the integer array [i]. *)
Definition rsub_scalar (k : Z) (i : list Z) : list Z :=
  map (fun v => (k - v)%Z) i.

(** ** The mixture sampler *)

Definition sigma_norm : R := 1.

Definition sigma_spike (a : R) : R := 1 + a.

Section Notebook.

Context {rng : Type} `{Sampler rng}.

Definition two_norms (num_samples : nat) (a p : R)
  : State rng ndarray :=
  let mean := 0 in
  X_norm <- norm_rvs mean sigma_norm num_samples ;;
  X_spike <- norm_rvs mean (sigma_spike a) num_samples ;;
  i <- binom_rvs 1 (1 - p) num_samples ;;
  let X :=
    arr_add (arr_mul (int_array i) (asarray X_norm))
            (arr_mul (int_array (rsub_scalar 1 i)) (asarray X_spike)) in
  ret X.

(** ** The Monte Carlo driver *)

(** The first half of [get_efficiency_sample]: the sets of samples and
    the two lists computed from them, [(stds, mads)]. *)
Definition dispersion_estimates (num_samples num_sets_of_samples : nat)
  (a p : R) : State rng (list Float64.t * list Float64.t) :=
  sets_of_samples <-
    replicateM num_sets_of_samples (two_norms num_samples a p) ;;
  let stds := map tstd sets_of_samples in
  let mads := map mad sets_of_samples in
  ret (stds, mads).

(** [get_efficiency_sample] with its two local constants as
    arguments. *)
Definition get_efficiency_sample_sized
  (num_samples num_sets_of_samples : nat) (a p : R)
  : State rng Float64.t :=
  sm <- dispersion_estimates num_samples num_sets_of_samples a p ;;
  let std_efficiency := get_efficiency (fst sm) in
  let mad_efficiency := get_efficiency (snd sm) in
  ret (fdiv std_efficiency mad_efficiency).

Definition num_samples_default : nat := 1000.
Definition num_sets_of_samples_default : nat := 10000.

Definition get_efficiency_sample (a p : R) : State rng Float64.t :=
  get_efficiency_sample_sized
    num_samples_default num_sets_of_samples_default a p.

(** The call [get_efficiency_sample()]: [a=0], [p=0]. *)
Definition get_efficiency_sample_default : State rng Float64.t :=
  get_efficiency_sample 0 0.

End Notebook.

(** ** A generator to run the model on

    [Replay] reads its variates from two fixed tables, position by
    position, and keeps a log of the sampler calls it served. *)

Module Replay.

Inductive call : Type :=
| NormCall (loc scale : R) (size : nat)
| BinomCall (n : Z) (p : R) (size : nat).

Record rng : Type := mk_rng { pos : nat; log : list call }.

(** The standard normal table: 0, 1, 2, ... *)
Definition z_table (k : nat) : R := INR k.

(** The uniform table: 0, 1/2, 0, 1/2, ... *)
Definition u_table (k : nat) : R := if Nat.even k then 0 else / 2.

Definition norm_rvs (loc scale : R) (size : nat) : State rng (list R) :=
  fun g =>
    (map (fun j => loc + scale * z_table (pos g + j)) (seq 0 size),
     mk_rng (pos g + size) (log g ++ [NormCall loc scale size])).

Definition binom_rvs (n : Z) (p : R) (size : nat) : State rng (list Z) :=
  fun g =>
    (map (fun j => if Rlt_dec (u_table (pos g + j)) p then n else 0%Z)
         (seq 0 size),
     mk_rng (pos g + size) (log g ++ [BinomCall n p size])).

Definition seed (k : Z) : rng := mk_rng (Z.to_nat k) [].

End Replay.

#[export] Instance replay_sampler : Sampler Replay.rng :=
  Build_Sampler Replay.rng Replay.norm_rvs Replay.binom_rvs Replay.seed.

(** ** The estimators in the words of the specification *)

Definition Rsum (xs : list R) : R := fold_right Rplus 0 xs.

Definition spec_mean (xs : list R) : R := Rsum xs / INR (length xs).

(** MAD(batch) = (1/n) * sum of |x_i - mean(batch)|. *)
Definition spec_mad (xs : list R) : R :=
  1 / INR (length xs) * Rsum (map (fun x => Rabs (x - spec_mean xs)) xs).

(** The sample variance with the [n - 1] denominator. *)
Definition spec_tvar (xs : list R) : R :=
  Rsum (map (fun x => (x - spec_mean xs) * (x - spec_mean xs)) xs)
  / INR (length xs - 1).

(** efficiency(array) = variance(array) / mean(array)^2. *)
Definition spec_efficiency (arr : ndarray) : Float64.t :=
  fdiv (np_var arr 0) (fmul (np_mean arr) (np_mean arr)).

(** [i * X_norm + (1 - i) * X_spike] over the reals. *)
Fixpoint mixture (i : list Z) (xn xs : list R) : list R :=
  match i, xn, xs with
  | k :: i', n :: xn', s :: xs' =>
      (IZR k * n + IZR (1 - k) * s) :: mixture i' xn' xs'
  | _, _, _ => []
  end.

(** The estimator in the words of the specification. *)

Section SpecEstimator.

Context {rng : Type} `{Sampler rng}.

(** [M] calls to the mixture sampler, one batch of size [N] each. *)
Fixpoint spec_batches (M N : nat) (a p : R) (g : rng)
  : list ndarray * rng :=
  match M with
  | O => ([], g)
  | S m =>
      let (batch, g1) := two_norms N a p g in
      let (rest, g2) := spec_batches m N a p g1 in
      (batch :: rest, g2)
  end.

(** result = efficiency(STD array) / efficiency(MAD array). *)
Definition spec_relative_efficiency (M N : nat) (a p : R) (g : rng)
  : Float64.t * rng :=
  let (batches, g') := spec_batches M N a p g in
  let std_array := map tstd batches in
  let mad_array := map mad batches in
  (fdiv (spec_efficiency std_array) (spec_efficiency mad_array), g').

End SpecEstimator.

(** The variance with the [n] denominator, as [np.var] has it by
    default. *)
Definition spec_var (xs : list R) : R :=
  Rsum (map (fun x => (x - spec_mean xs) * (x - spec_mean xs)) xs)
  / INR (length xs).

(** ** The sweep over the inflation parameter *)

(** [[f x for x in xs]] where [f] reads and advances the state. *)
Fixpoint mapM {S A B : Type} (f : A -> State S B) (xs : list A)
  : State S (list B) :=
  match xs with
  | [] => ret []
  | x :: xs' => y <- f x ;; ys <- mapM f xs' ;; ret (y :: ys)
  end.

(** [a = [ _ for _ in range(0,21) ]]. *)
Definition sweep_a : list Z := map Z.of_nat (seq 0 21).

(** [p = 0.01]. *)
Definition sweep_p : R := 1 / 100.

Section Sweep.

Context {rng : Type} `{Sampler rng}.

(** [efficiencies = [get_efficiency_sample(a_, p) for a_ in a]]. *)
Definition efficiencies : State rng (list Float64.t) :=
  mapM (fun a_ => get_efficiency_sample (IZR a_) sweep_p) sweep_a.

(** The points handed to [plt.plot(a, efficiencies)]. *)
Definition plot_points : State rng (list (Z * Float64.t)) :=
  ys <- efficiencies ;; ret (combine sweep_a ys).

End Sweep.

(** ** Sums and means of finite arrays *)

Lemma fold_add_fin (xs : list R) (acc : R) :
  fold_left fadd (asarray xs) (Fin acc) = Fin (acc + Rsum xs).
Proof.
  revert acc; induction xs as [|x xs IH]; intros acc; simpl.
  - f_equal; lra.
  - rewrite IH. f_equal; lra.
Qed.

Lemma np_sum_fin (xs : list R) : np_sum (asarray xs) = Fin (Rsum xs).
Proof.
  unfold np_sum. rewrite fold_add_fin. f_equal; lra.
Qed.

Lemma length_asarray (xs : list R) : length (asarray xs) = length xs.
Proof. apply length_map. Qed.

Lemma INR_length_pos {A : Type} (xs : list A) : xs <> [] -> 0 < INR (length xs).
Proof.
  destruct xs as [|x xs]; [congruence|]. intros _.
  apply lt_0_INR. simpl; lia.
Qed.

Lemma div_fin (a b : R) : b <> 0 -> fdiv (Fin a) (Fin b) = Fin (a / b).
Proof.
  intros Hb. simpl. destruct (Req_dec_T b 0); [contradiction|reflexivity].
Qed.

Lemma div_zero_zero : fdiv (Fin 0) (Fin 0) = NaN.
Proof.
  simpl. destruct (Req_dec_T 0 0) as [_|Hn]; [|exfalso; apply Hn; reflexivity].
  unfold sign. destruct (Rlt_dec 0 0) as [Hlt|_]; [lra|]. reflexivity.
Qed.

Lemma np_mean_fin (xs : list R) :
  xs <> [] -> np_mean (asarray xs) = Fin (spec_mean xs).
Proof.
  intros Hne. unfold np_mean, spec_mean.
  rewrite np_sum_fin, length_asarray.
  apply div_fin. apply Rgt_not_eq, INR_length_pos, Hne.
Qed.

Lemma np_mean_nil : np_mean [] = NaN.
Proof. unfold np_mean, np_sum. simpl. apply div_zero_zero. Qed.

Lemma sub_scalar_fin (xs : list R) (m : R) :
  sub_scalar (asarray xs) (Fin m) = asarray (map (fun x => x - m) xs).
Proof.
  unfold sub_scalar, asarray. rewrite !map_map.
  apply map_ext. intros x. reflexivity.
Qed.

Lemma np_abs_fin (xs : list R) : np_abs (asarray xs) = asarray (map Rabs xs).
Proof.
  unfold np_abs, asarray. rewrite !map_map. reflexivity.
Qed.

Lemma square_fin (xs : list R) :
  map (fun v => fmul v v) (asarray xs) = asarray (map (fun x => x * x) xs).
Proof.
  unfold asarray. rewrite !map_map. reflexivity.
Qed.

Lemma Rsum_nonneg (xs : list R) : Forall (fun x => 0 <= x) xs -> 0 <= Rsum xs.
Proof.
  induction 1 as [|x xs Hx _ IH]; simpl; lra.
Qed.

Lemma Rsum_zeros (xs : list R) : Forall (fun x => x = 0) xs -> Rsum xs = 0.
Proof.
  induction 1 as [|x xs Hx _ IH]; simpl; lra.
Qed.

(** [mad] on a non-empty finite batch, in closed form. *)
Lemma mad_fin (xs : list R) :
  xs <> [] -> mad (asarray xs) = Fin (spec_mad xs).
Proof.
  intros Hne. unfold mad.
  rewrite (np_mean_fin xs Hne), sub_scalar_fin, np_abs_fin.
  assert (Hne' : map Rabs (map (fun x => x - spec_mean xs) xs) <> []).
  { destruct xs; [congruence|discriminate]. }
  rewrite (np_mean_fin _ Hne'). f_equal.
  unfold spec_mean at 1, spec_mad. rewrite !length_map, map_map.
  pose proof (INR_length_pos xs Hne). field. lra.
Qed.

(** [np.var] of a finite batch whose divisor [n - ddof] is positive. *)
Lemma np_var_fin (xs : list R) (ddof : nat) :
  (ddof < length xs)%nat ->
  np_var (asarray xs) ddof =
  Fin (Rsum (map (fun x => (x - spec_mean xs) * (x - spec_mean xs)) xs)
       / INR (length xs - ddof)).
Proof.
  intros Hlt. unfold np_var.
  assert (Hne : xs <> []) by (destruct xs; [simpl in Hlt; lia|discriminate]).
  rewrite (np_mean_fin xs Hne), sub_scalar_fin, square_fin, np_sum_fin.
  rewrite length_asarray, map_map.
  apply div_fin. apply Rgt_not_eq, lt_0_INR. lia.
Qed.

(** [np.var] with a divisor of zero on a finite batch: [0 / 0] or
    [positive / 0]; on at most one element it is [0 / 0]. *)
Lemma tvar_nil : tvar [] = NaN.
Proof.
  unfold tvar, np_var. simpl. unfold np_sum. simpl. apply div_zero_zero.
Qed.

Lemma tvar_single (x : R) : tvar (asarray [x]) = NaN.
Proof.
  unfold tvar, np_var.
  rewrite (np_mean_fin [x]) by discriminate.
  rewrite sub_scalar_fin, square_fin, np_sum_fin. simpl length. simpl INR.
  replace (Rsum _) with 0.
  - apply div_zero_zero.
  - unfold spec_mean. simpl. field.
Qed.

Lemma tstd_fin (xs : list R) :
  (2 <= length xs)%nat -> tstd (asarray xs) = Fin (sqrt (spec_tvar xs)).
Proof.
  intros Hlen. unfold tstd, tvar. rewrite np_var_fin by lia.
  fold (spec_tvar xs). unfold np_sqrt. simpl.
  destruct (Rlt_dec (spec_tvar xs) 0) as [Hneg|_]; [|reflexivity].
  exfalso. revert Hneg. apply Rle_not_lt.
  unfold spec_tvar. apply Rmult_le_pos.
  - apply Rsum_nonneg. apply Forall_forall. intros y Hy.
    apply in_map_iff in Hy. destruct Hy as [x [<- _]].
    fold (Rsqr (x - spec_mean xs)). apply Rle_0_sqr.
  - left. apply Rinv_0_lt_compat, lt_0_INR. lia.
Qed.

(** ** The mixture, element by element *)

Lemma mixture_fin (i : list Z) (xn xs : list R) :
  arr_add (arr_mul (int_array i) (asarray xn))
          (arr_mul (int_array (rsub_scalar 1 i)) (asarray xs))
  = asarray (mixture i xn xs).
Proof.
  unfold arr_add, arr_mul, int_array, rsub_scalar, asarray.
  revert xn xs; induction i as [|k i IH]; intros xn xs; [reflexivity|].
  destruct xn as [|n xn]; [reflexivity|].
  destruct xs as [|s xs]; cbn [map zip_with mixture].
  - reflexivity.
  - f_equal. apply IH.
Qed.

Lemma mixture_length (i : list Z) (xn xs : list R) (n : nat) :
  length i = n -> length xn = n -> length xs = n ->
  length (mixture i xn xs) = n.
Proof.
  revert i xn xs; induction n as [|n IH]; intros i xn xs Hi Hn Hs;
    destruct i, xn, xs; simpl in *; try discriminate; try reflexivity.
  f_equal. apply IH; congruence.
Qed.

(** When every indicator is 1 the mixture is the first array. *)
Lemma mixture_all_ones (xn xs : list R) (n : nat) :
  length xn = n -> length xs = n -> mixture (repeat 1%Z n) xn xs = xn.
Proof.
  revert xn xs; induction n as [|n IH]; intros xn xs Hn Hs;
    destruct xn, xs; simpl in *; try discriminate; try reflexivity.
  f_equal.
  - lra.
  - apply IH; congruence.
Qed.

(** ** Runs of the state monad *)

Lemma replicateM_length {S A : Type} (n : nat) (m : State S A) (s : S) :
  length (fst (replicateM n m s)) = n.
Proof.
  revert s; induction n as [|n IH]; intros s; [reflexivity|].
  simpl. unfold bind, ret. destruct (m s) as [x s1].
  specialize (IH s1). destruct (replicateM n m s1) as [xs s2].
  simpl in *. congruence.
Qed.

Lemma replicateM_Forall {S A : Type} (P : A -> Prop) (n : nat)
  (m : State S A) (s : S) :
  (forall s', P (fst (m s'))) -> Forall P (fst (replicateM n m s)).
Proof.
  intros HP. revert s; induction n as [|n IH]; intros s; [constructor|].
  simpl. unfold bind, ret. specialize (HP s). destruct (m s) as [x s1].
  specialize (IH s1). destruct (replicateM n m s1) as [xs s2].
  simpl in *. constructor; assumption.
Qed.

Section NotebookFacts.

Context {rng : Type} `{Sampler rng}.

(** One run of [two_norms], draw by draw. *)
Lemma two_norms_run (N : nat) (a p : R) (g : rng) :
  let d1 := norm_rvs 0 sigma_norm N g in
  let d2 := norm_rvs 0 (sigma_spike a) N (snd d1) in
  let d3 := binom_rvs 1 (1 - p) N (snd d2) in
  two_norms N a p g
  = (asarray (mixture (fst d3) (fst d1) (fst d2)), snd d3).
Proof.
  intros d1 d2 d3. unfold two_norms, bind, ret.
  subst d1 d2 d3.
  destruct (norm_rvs 0 sigma_norm N g) as [xn g1]. simpl.
  destruct (norm_rvs 0 (sigma_spike a) N g1) as [xs g2]. simpl.
  destruct (binom_rvs 1 (1 - p) N g2) as [i g3]. simpl.
  rewrite mixture_fin. reflexivity.
Qed.

Lemma dispersion_estimates_run (N M : nat) (a p : R) (g : rng) :
  let sets := replicateM M (two_norms N a p) g in
  dispersion_estimates N M a p g
  = ((map tstd (fst sets), map mad (fst sets)), snd sets).
Proof.
  intros sets. unfold dispersion_estimates, bind, ret. subst sets.
  destruct (replicateM M (two_norms N a p) g) as [bs g']. reflexivity.
Qed.

Context `{!SamplerContract rng}.

(** A batch is an array of [num_samples] finite doubles. *)
Lemma two_norms_finite (N : nat) (a p : R) (g : rng) :
  exists xs : list R,
    fst (two_norms N a p g) = asarray xs /\ length xs = N.
Proof.
  rewrite two_norms_run. simpl. eexists; split; [reflexivity|].
  apply mixture_length.
  - apply binom_rvs_size.
  - apply norm_rvs_size.
  - apply norm_rvs_size.
Qed.

Lemma two_norms_length (N : nat) (a p : R) (g : rng) :
  length (fst (two_norms N a p g)) = N.
Proof.
  destruct (two_norms_finite N a p g) as [xs [-> Hlen]].
  rewrite length_asarray. exact Hlen.
Qed.

End NotebookFacts.

(** ** [Replay] meets the sampler contract *)

Lemma u_table_lt_1 (k : nat) : Replay.u_table k < 1.
Proof. unfold Replay.u_table. destruct (Nat.even k); lra. Qed.

#[export] Instance replay_contract : SamplerContract Replay.rng.
Proof.
  split.
  - intros loc scale size g. simpl. rewrite length_map. apply length_seq.
  - intros n p size g. simpl. rewrite length_map. apply length_seq.
  - intros n size g. simpl.
    generalize (Replay.pos g). intros k.
    assert (Hmap : forall l : list nat,
      map (fun j => if Rlt_dec (Replay.u_table (k + j)) 1 then n else 0%Z) l
      = repeat n (length l)).
    { induction l as [|j l IH]; [reflexivity|]. simpl.
      destruct (Rlt_dec (Replay.u_table (k + j)) 1) as [_|Hn].
      - f_equal. exact IH.
      - exfalso. apply Hn. apply u_table_lt_1. }
    rewrite Hmap, length_seq. reflexivity.
Qed.

(** ** Degenerate batches *)

Lemma Rabs_0_of_eq (r : R) : r = 0 -> Rabs r = 0.
Proof. intros ->. apply Rabs_R0. Qed.

(** The mean absolute deviation of one point is zero. *)
Lemma mad_single (x : R) : mad (asarray [x]) = Fin 0.
Proof.
  rewrite mad_fin by discriminate. f_equal.
  unfold spec_mad, spec_mean. simpl.
  rewrite Rabs_0_of_eq by (field). field.
Qed.

Lemma asarray_repeat (x : R) (n : nat) :
  asarray (repeat x n) = repeat (Fin x) n.
Proof. unfold asarray. apply map_repeat. Qed.

Lemma Rsum_repeat_0 (n : nat) : Rsum (repeat 0 n) = 0.
Proof. induction n as [|n IH]; simpl; lra. Qed.

Lemma np_mean_zeros (n : nat) :
  (0 < n)%nat -> np_mean (repeat (Fin 0) n) = Fin 0.
Proof.
  intros Hn. rewrite <- asarray_repeat.
  rewrite np_mean_fin by (destruct n; [lia|discriminate]).
  f_equal. unfold spec_mean. rewrite Rsum_repeat_0. unfold Rdiv. lra.
Qed.

Lemma np_var_zeros (n : nat) :
  (0 < n)%nat -> np_var (repeat (Fin 0) n) 0 = Fin 0.
Proof.
  intros Hn. rewrite <- asarray_repeat.
  rewrite np_var_fin by (rewrite repeat_length; exact Hn).
  f_equal. rewrite Rsum_zeros; [unfold Rdiv; lra|].
  apply Forall_forall. intros y Hy. apply in_map_iff in Hy.
  destruct Hy as [x [<- Hx]]. apply repeat_spec in Hx. subst x.
  unfold spec_mean. rewrite Rsum_repeat_0. unfold Rdiv. lra.
Qed.

Lemma fpow_zero_2 : fpow (Fin 0) 2 = Fin 0.
Proof. simpl. f_equal. lra. Qed.

Lemma get_efficiency_zeros (n : nat) :
  (0 < n)%nat -> get_efficiency (repeat (Fin 0) n) = NaN.
Proof.
  intros Hn. unfold get_efficiency.
  rewrite np_var_zeros, np_mean_zeros, fpow_zero_2 by exact Hn.
  apply div_zero_zero.
Qed.

(** ** Worked examples *)

Example mad_1_3 : mad (asarray [1; 3]) = Fin 1.
Proof.
  rewrite mad_fin by discriminate. f_equal.
  unfold spec_mad, spec_mean. simpl.
  unfold Rabs. do 2 destruct Rcase_abs; lra.
Qed.

Example tstd_1_3 : tstd (asarray [1; 3]) = Fin (sqrt 2).
Proof.
  rewrite tstd_fin by (simpl; lia). do 2 f_equal.
  unfold spec_tvar, spec_mean. simpl. field.
Qed.

Example get_efficiency_1_3 : get_efficiency (asarray [1; 3]) = Fin (/ 4).
Proof.
  unfold get_efficiency.
  rewrite np_var_fin by (simpl; lia).
  rewrite np_mean_fin by discriminate.
  unfold spec_mean. simpl.
  destruct (Req_dec_T ((1 + (3 + 0)) / (1 + 1) * ((1 + (3 + 0)) / (1 + 1) * 1)) 0)
    as [Hz|_].
  - exfalso. revert Hz. apply Rgt_not_eq. lra.
  - f_equal. field.
Qed.

Example get_efficiency_mean_zero :
  get_efficiency (asarray [-1; 1]) = PInf.
Proof.
  unfold get_efficiency.
  rewrite np_var_fin by (simpl; lia).
  rewrite np_mean_fin by discriminate.
  unfold spec_mean. simpl.
  destruct (Req_dec_T ((-1 + (1 + 0)) / (1 + 1) * ((-1 + (1 + 0)) / (1 + 1) * 1)) 0)
    as [_|Hn].
  - unfold sign.
    destruct (Rlt_dec _ 0) as [Hlt|_]; [exfalso; lra|].
    destruct (Rlt_dec 0 _) as [_|Hn]; [reflexivity|exfalso; lra].
  - exfalso. apply Hn. lra.
Qed.

(** ** The driver against the specification *)

Section SpecEstimatorFacts.

Context {rng : Type} `{Sampler rng}.

Lemma replicateM_two_norms (M N : nat) (a p : R) (g : rng) :
  replicateM M (two_norms N a p) g = spec_batches M N a p g.
Proof.
  revert g; induction M as [|M IH]; intros g; [reflexivity|].
  cbn [replicateM spec_batches]. unfold bind at 1.
  destruct (two_norms N a p g) as [b g1].
  unfold bind, ret. rewrite IH.
  destruct (spec_batches M N a p g1) as [bs g2]. reflexivity.
Qed.

Lemma fmul_one_r (x : Float64.t) : fmul x (Fin 1) = x.
Proof.
  destruct x as [r| | |]; simpl; try reflexivity.
  - f_equal. lra.
  - unfold sign. destruct (Rlt_dec 1 0); [lra|].
    destruct (Rlt_dec 0 1); [reflexivity|lra].
  - unfold sign. destruct (Rlt_dec 1 0); [lra|].
    destruct (Rlt_dec 0 1); [reflexivity|lra].
Qed.

Lemma get_efficiency_spec (data : ndarray) :
  get_efficiency data = spec_efficiency data.
Proof.
  unfold get_efficiency, spec_efficiency. cbn [fpow].
  rewrite fmul_one_r. reflexivity.
Qed.

Lemma get_efficiency_sample_sized_spec (N M : nat) (a p : R) (g : rng) :
  get_efficiency_sample_sized N M a p g
  = spec_relative_efficiency M N a p g.
Proof.
  unfold get_efficiency_sample_sized, spec_relative_efficiency.
  unfold bind at 1. rewrite dispersion_estimates_run.
  rewrite replicateM_two_norms.
  destruct (spec_batches M N a p g) as [bs g']. unfold ret.
  cbn [fst snd]. rewrite !get_efficiency_spec. reflexivity.
Qed.

Lemma spec_batches_length (M N : nat) (a p : R) (g : rng) :
  length (fst (spec_batches M N a p g)) = M.
Proof.
  rewrite <- replicateM_two_norms. apply replicateM_length.
Qed.

End SpecEstimatorFacts.

(** ** Runs on the [Replay] generator *)

(** A batch of two at [a = 3], [p = 1/2]: the first element comes from
    [X_norm], the second from [X_spike], which is the table entry 3
    scaled by [1 + a = 4]. *)
Example two_norms_replay :
  fst (two_norms 2 3 (/ 2) (Replay.seed 0)) = asarray [0; 12].
Proof.
  rewrite two_norms_run.
  cbn [fst snd norm_rvs binom_rvs replay_sampler Replay.norm_rvs
       Replay.binom_rvs Replay.seed Replay.pos Replay.log seq map
       Nat.add Z.to_nat].
  unfold Replay.u_table, Replay.z_table. cbn [Nat.even Nat.add].
  destruct (Rlt_dec 0 (1 - / 2)) as [_|Hn]; [|exfalso; lra].
  destruct (Rlt_dec (/ 2) (1 - / 2)) as [Hlt|_]; [exfalso; lra|].
  cbn [mixture]. unfold asarray, sigma_norm, sigma_spike. cbn [map INR].
  repeat f_equal; simpl; lra.
Qed.

(** Every batch costs three sampler calls, so [M] batches cost [3 * M]. *)
Lemma replay_calls (M N : nat) (a p : R) (g : Replay.rng) :
  length (Replay.log (snd (replicateM M (two_norms N a p) g)))
  = (length (Replay.log g) + 3 * M)%nat.
Proof.
  revert g; induction M as [|M IH]; intros g.
  - simpl. lia.
  - cbn [replicateM]. unfold bind at 1. rewrite two_norms_run.
    unfold bind, ret.
    match goal with
    | |- context [replicateM M _ ?g1] =>
        specialize (IH g1); destruct (replicateM M (two_norms N a p) g1)
          as [bs g2]
    end.
    cbn [snd] in *. rewrite IH.
    cbn [snd norm_rvs binom_rvs replay_sampler Replay.norm_rvs
         Replay.binom_rvs Replay.log].
    rewrite !length_app. simpl. lia.
Qed.

(** ** The notebook against its specification *)

Lemma sqrt_4 : sqrt (1 + 3) = 2.
Proof. apply sqrt_lem_1; lra. Qed.

(** The scale the notebook uses and the documented one agree at [a = 0]
    only. *)
Lemma sigma_spike_sqrt_iff (a : R) :
  0 <= a -> (sigma_spike a = sqrt (1 + a) <-> a = 0).
Proof.
  intros Ha. unfold sigma_spike. split.
  - intros Heq.
    assert (Hsq : sqrt (1 + a) * sqrt (1 + a) = 1 + a)
      by (apply sqrt_def; lra).
    rewrite <- Heq in Hsq. nra.
  - intros ->. rewrite Rplus_0_r, sqrt_1. reflexivity.
Qed.

(** C1: the mixture sampler draws its spike component with the scale
    [sqrt (1 + a)].  The notebook passes [1 + a] instead: at [a = 3] the
    second call to [norm.rvs] is made with scale 4, where [sqrt (1 + 3)]
    is 2. *)
Theorem two_norms_spike_scale_is_not_sqrt :
  sigma_spike 3 = 4 /\
  sqrt (1 + 3) = 2 /\
  sigma_spike 3 <> sqrt (1 + 3) /\
  Replay.log (snd (two_norms 5 3 (/ 2) (Replay.seed 0)))
  = [Replay.NormCall 0 1 5;
     Replay.NormCall 0 (1 + 3) 5;
     Replay.BinomCall 1 (1 - / 2) 5].
Proof.
  split; [unfold sigma_spike; lra|].
  split; [exact sqrt_4|].
  split; [rewrite sqrt_4; unfold sigma_spike; lra|].
  rewrite two_norms_run. reflexivity.
Qed.

(** C2, as the code has it: [mad] and [tstd] are pure functions of the
    batch that raise nothing.  On the empty batch both return NaN; on a
    batch of one element [tstd] returns NaN as well, where [mad]
    returns 0. *)
Theorem dispersion_degenerate_batches_give_nan :
  mad [] = NaN /\
  tstd [] = NaN /\
  (forall x : R, tstd (asarray [x]) = NaN) /\
  (forall x : R, mad (asarray [x]) = Fin 0).
Proof.
  split; [unfold mad; simpl; apply np_mean_nil|].
  split; [unfold tstd; rewrite tvar_nil; reflexivity|].
  split; [intros x; unfold tstd; rewrite tvar_single; reflexivity|].
  intros x. apply mad_single.
Qed.

(** Counterexample to C2 as stated: the empty batch makes [mad] and [tstd]
    return the value NaN, and [tstd] also returns NaN on the non-empty
    batch [5]. *)
Lemma empty_batch_returns_nan :
  is_nan (mad []) = true /\
  is_nan (tstd []) = true /\
  is_nan (tstd (asarray [5])) = true.
Proof.
  split; [unfold mad; simpl; rewrite np_mean_nil; reflexivity|].
  split; [unfold tstd; rewrite tvar_nil; reflexivity|].
  unfold tstd. rewrite tvar_single. reflexivity.
Qed.

(** C3: [get_efficiency_sample()] draws 10000 batches of 1000 samples by
    10000 successive calls to the mixture sampler with [a = 0], [p = 0],
    computes STD and MAD for each batch, and returns
    efficiency(STD array) / efficiency(MAD array), where efficiency is
    variance / mean^2.  The same holds for every [a] and [p]. *)
Theorem get_efficiency_sample_refines_spec
  {rng : Type} `{Sampler rng} `{!SamplerContract rng} (a p : R) (g : rng) :
  get_efficiency_sample a p g = spec_relative_efficiency 10000 1000 a p g /\
  get_efficiency_sample_default g
  = spec_relative_efficiency 10000 1000 0 0 g /\
  length (fst (spec_batches 10000 1000 a p g)) = 10000%nat /\
  Forall (fun batch => length batch = 1000%nat)
         (fst (spec_batches 10000 1000 a p g)).
Proof.
  split; [apply get_efficiency_sample_sized_spec|].
  split; [apply get_efficiency_sample_sized_spec|].
  split; [apply spec_batches_length|].
  rewrite <- replicateM_two_norms.
  apply replicateM_Forall. intros g'. apply two_norms_length.
Qed.

Lemma get_efficiency_sample_refines_spec_witness :
  get_efficiency_sample_default (Replay.seed 0)
  = spec_relative_efficiency 10000 1000 0 0 (Replay.seed 0).
Proof.
  apply (get_efficiency_sample_refines_spec 0 0 (Replay.seed 0)).
Defined.

Lemma map_mad_singletons (batches : list ndarray) :
  Forall (fun b => exists xs : list R, b = asarray xs /\ length xs = 1%nat)
         batches ->
  map mad batches = repeat (Fin 0) (length batches).
Proof.
  induction 1 as [|b bs [xs [-> Hlen]] _ IH]; [reflexivity|].
  simpl. rewrite IH. f_equal.
  destruct xs as [|x [|y xs]]; simpl in Hlen; try discriminate.
  apply mad_single.
Qed.

(** C5: with batches of size 1 every MAD is exactly 0, the MAD array is
    all zeros, its mean and the divisor mean^2 are 0, and
    [get_efficiency] on it divides zero by zero. *)
Theorem single_sample_batches_divide_by_zero
  {rng : Type} `{Sampler rng} `{!SamplerContract rng}
  (M : nat) (a p : R) (g : rng) :
  (0 < M)%nat ->
  let mads := snd (fst (dispersion_estimates 1 M a p g)) in
  mads = repeat (Fin 0) M /\
  np_mean mads = Fin 0 /\
  fpow (np_mean mads) 2 = Fin 0 /\
  get_efficiency mads = NaN.
Proof.
  intros HM mads.
  assert (Hz : mads = repeat (Fin 0) M).
  { subst mads. rewrite dispersion_estimates_run. cbn [fst snd].
    rewrite map_mad_singletons.
    - rewrite replicateM_length. reflexivity.
    - apply replicateM_Forall. intros g'. apply two_norms_finite. }
  rewrite Hz. split; [reflexivity|].
  rewrite np_mean_zeros by exact HM.
  split; [reflexivity|].
  split; [apply fpow_zero_2|].
  apply get_efficiency_zeros, HM.
Qed.

Lemma single_sample_batches_divide_by_zero_witness :
  (0 < 2)%nat /\
  get_efficiency
    (snd (fst (dispersion_estimates 1 2 3 (/ 2) (Replay.seed 0)))) = NaN.
Proof.
  split; [lia|].
  apply (single_sample_batches_divide_by_zero 2 3 (/ 2) (Replay.seed 0)).
  lia.
Defined.

(** C6: on every non-empty batch of real numbers [mad] is
    (1/n) * sum of |x_i - mean(batch)|. *)
Theorem mad_is_mean_absolute_deviation (xs : list R) :
  xs <> [] ->
  mad (asarray xs)
  = Fin (1 / INR (length xs)
         * Rsum (map (fun x => Rabs (x - Rsum xs / INR (length xs))) xs)).
Proof.
  intros Hne. rewrite mad_fin by exact Hne. reflexivity.
Qed.

Lemma mad_is_mean_absolute_deviation_witness :
  [1; 3] <> [] /\
  mad (asarray [1; 3])
  = Fin (1 / INR 2 * Rsum (map (fun x => Rabs (x - Rsum [1; 3] / INR 2))
                               [1; 3])).
Proof.
  split; [discriminate|].
  apply (mad_is_mean_absolute_deviation [1; 3]). discriminate.
Defined.

(** C7: [mad] is non-negative on every non-empty batch of real numbers,
    and the sample standard deviation [tstd] is non-negative on every
    batch of at least two. *)
Theorem dispersion_is_nonnegative (xs : list R) :
  (xs <> [] -> fle (Fin 0) (mad (asarray xs))) /\
  ((2 <= length xs)%nat -> fle (Fin 0) (tstd (asarray xs))).
Proof.
  split.
  - intros Hne. rewrite mad_fin by exact Hne. simpl.
    unfold spec_mad. apply Rmult_le_pos.
    + unfold Rdiv. rewrite Rmult_1_l. left.
      apply Rinv_0_lt_compat, INR_length_pos, Hne.
    + apply Rsum_nonneg, Forall_forall. intros y Hy.
      apply in_map_iff in Hy. destruct Hy as [x [<- _]]. apply Rabs_pos.
  - intros Hlen. rewrite tstd_fin by exact Hlen. simpl. apply sqrt_pos.
Qed.

Lemma dispersion_is_nonnegative_witness :
  [1; 3] <> [] /\ (2 <= length [1; 3])%nat /\
  fle (Fin 0) (mad (asarray [1; 3])) /\
  fle (Fin 0) (tstd (asarray [1; 3])).
Proof.
  split; [discriminate|].
  split; [simpl; lia|].
  destruct (dispersion_is_nonnegative [1; 3]) as [Hmad Hstd].
  split; [apply Hmad; discriminate|apply Hstd; simpl; lia].
Defined.

(** C9: the STD array and the MAD array of a run have the same length
    [M], one entry for each of the [M] batches drawn. *)
Theorem dispersion_arrays_have_length_M
  {rng : Type} `{Sampler rng} (N M : nat) (a p : R) (g : rng) :
  let batches := fst (replicateM M (two_norms N a p) g) in
  let stds := fst (fst (dispersion_estimates N M a p g)) in
  let mads := snd (fst (dispersion_estimates N M a p g)) in
  length batches = M /\
  stds = map tstd batches /\
  mads = map mad batches /\
  length stds = M /\
  length mads = M.
Proof.
  intros batches stds mads. subst batches stds mads.
  rewrite dispersion_estimates_run. cbn [fst snd].
  rewrite !length_map, replicateM_length. repeat split; reflexivity.
Qed.

(** C10: when [p = 0] every indicator drawn by [two_norms] is 1 and the
    sample returned is [X_norm], element by element; from one generator
    state, [two_norms N a 0] returns the same array for every [a]. *)
Theorem two_norms_p0_is_X_norm
  {rng : Type} `{Sampler rng} `{!SamplerContract rng}
  (N : nat) (a : R) (g : rng) :
  (forall g' : rng, fst (binom_rvs 1 (1 - 0) N g') = repeat 1%Z N) /\
  fst (two_norms N a 0 g) = asarray (fst (norm_rvs 0 sigma_norm N g)) /\
  forall a' : R, fst (two_norms N a' 0 g) = fst (two_norms N a 0 g).
Proof.
  assert (Hones : forall g', fst (binom_rvs 1 (1 - 0) N g') = repeat 1%Z N).
  { intros g'. rewrite Rminus_0_r. apply binom_rvs_sure. }
  assert (Hx : forall b,
    fst (two_norms N b 0 g) = asarray (fst (norm_rvs 0 sigma_norm N g))).
  { intros b. rewrite two_norms_run. cbn [fst]. rewrite Hones.
    rewrite mixture_all_ones; [reflexivity| |]; apply norm_rvs_size. }
  split; [exact Hones|].
  split; [apply Hx|].
  intros a'. rewrite !Hx. reflexivity.
Qed.

Lemma two_norms_p0_is_X_norm_witness :
  fst (two_norms 3 20 0 (Replay.seed 0))
  = fst (two_norms 3 0 0 (Replay.seed 0)).
Proof.
  apply (two_norms_p0_is_X_norm 3 0 (Replay.seed 0)).
Defined.

(** ** Further properties of the estimators *)

Lemma Rsum_squares_nonneg (m : R) (xs : list R) :
  0 <= Rsum (map (fun x => (x - m) * (x - m)) xs).
Proof.
  apply Rsum_nonneg, Forall_forall. intros y Hy.
  apply in_map_iff in Hy. destruct Hy as [x [<- _]].
  fold (Rsqr (x - m)). apply Rle_0_sqr.
Qed.

Lemma spec_mad_nonneg (xs : list R) : xs <> [] -> 0 <= spec_mad xs.
Proof.
  intros Hne. unfold spec_mad. apply Rmult_le_pos.
  - unfold Rdiv. rewrite Rmult_1_l. left.
    apply Rinv_0_lt_compat, INR_length_pos, Hne.
  - apply Rsum_nonneg, Forall_forall. intros y Hy.
    apply in_map_iff in Hy. destruct Hy as [x [<- _]]. apply Rabs_pos.
Qed.

(** ** [get_efficiency] in closed form *)

Lemma get_efficiency_fin (xs : list R) :
  xs <> [] ->
  get_efficiency (asarray xs)
  = fdiv (Fin (spec_var xs)) (Fin (spec_mean xs * spec_mean xs)).
Proof.
  intros Hne. unfold get_efficiency.
  rewrite np_var_fin by (destruct xs; [congruence|simpl; lia]).
  rewrite np_mean_fin by exact Hne.
  rewrite Nat.sub_0_r. fold (spec_var xs). simpl fpow.
  do 2 f_equal. lra.
Qed.

Lemma get_efficiency_nil : get_efficiency [] = NaN.
Proof.
  unfold get_efficiency. rewrite np_mean_nil. cbn [fpow fmul].
  destruct (np_var [] 0); reflexivity.
Qed.

Lemma spec_var_nonneg (xs : list R) : xs <> [] -> 0 <= spec_var xs.
Proof.
  intros Hne. unfold spec_var. apply Rmult_le_pos.
  - apply Rsum_squares_nonneg.
  - left. apply Rinv_0_lt_compat, INR_length_pos, Hne.
Qed.

Lemma sign_pos (v : R) : 0 < v -> sign v = Gt.
Proof.
  intros Hv. unfold sign. destruct (Rlt_dec v 0); [lra|].
  destruct (Rlt_dec 0 v); [reflexivity|lra].
Qed.

Lemma all_zero_repeat (xs : list R) :
  Forall (fun x => x = 0) xs -> xs = repeat 0 (length xs).
Proof.
  induction 1 as [|x xs Hx _ IH]; [reflexivity|].
  simpl. rewrite <- IH, Hx. reflexivity.
Qed.

(** The three shapes a value of [get_efficiency] can take. *)
Lemma get_efficiency_cases (xs : list R) :
  get_efficiency (asarray xs) = NaN \/
  get_efficiency (asarray xs) = PInf \/
  exists r : R, get_efficiency (asarray xs) = Fin r /\ 0 <= r.
Proof.
  destruct xs as [|x xs]; [left; apply get_efficiency_nil|].
  assert (Hne : x :: xs <> []) by discriminate.
  rewrite (get_efficiency_fin _ Hne).
  pose proof (spec_var_nonneg _ Hne) as Hv.
  set (v := spec_var (x :: xs)) in *. set (m := spec_mean (x :: xs)) in *.
  simpl. destruct (Req_dec_T (m * m) 0) as [Hz|Hnz].
  - destruct (Req_dec_T v 0) as [Hv0|Hv0].
    + left. rewrite Hv0. unfold sign.
      destruct (Rlt_dec 0 0); [lra|]. reflexivity.
    + right; left. rewrite sign_pos by lra. reflexivity.
  - right; right. eexists. split; [reflexivity|].
    unfold Rdiv. apply Rmult_le_pos; [exact Hv|].
    left. apply Rinv_0_lt_compat.
    assert (0 <= m * m) by (fold (Rsqr m); apply Rle_0_sqr). lra.
Qed.

(** X5: [get_efficiency] is never negative.  On every array of real
    numbers it is NaN or at least 0 (plus infinity included), and it is
    NaN when every entry is zero, the empty array included. *)
Theorem get_efficiency_never_negative (xs : list R) :
  (Forall (fun x => x = 0) xs -> get_efficiency (asarray xs) = NaN) /\
  (get_efficiency (asarray xs) = NaN \/
   fle (Fin 0) (get_efficiency (asarray xs))).
Proof.
  split.
  - intros Hall. destruct xs as [|x xs]; [apply get_efficiency_nil|].
    apply all_zero_repeat in Hall. rewrite Hall, asarray_repeat.
    apply get_efficiency_zeros. simpl; lia.
  - destruct (get_efficiency_cases xs) as [Hnan | [Hinf | [r [Hr Hpos]]]].
    + left. exact Hnan.
    + right. rewrite Hinf. exact I.
    + right. rewrite Hr. exact Hpos.
Qed.

Lemma get_efficiency_never_negative_witness :
  Forall (fun x => x = 0) [0; 0] /\ get_efficiency (asarray [0; 0]) = NaN.
Proof.
  assert (Hall : Forall (fun x => x = 0) [0; 0])
    by (repeat constructor).
  split; [exact Hall|].
  apply (get_efficiency_never_negative [0; 0]). exact Hall.
Defined.

(** ** Further properties of the sampler and the driver *)

Lemma mixture_pick (i : list Z) (xn xs : list R) (j : nat) :
  Forall (fun k => k = 0%Z \/ k = 1%Z) i ->
  (j < length (mixture i xn xs))%nat ->
  nth j (mixture i xn xs) 0 = nth j xn 0 \/
  nth j (mixture i xn xs) 0 = nth j xs 0.
Proof.
  intros Hi. revert xn xs j.
  induction Hi as [|k i Hk _ IH]; intros xn xs j Hj.
  - simpl in Hj. lia.
  - destruct xn as [|n xn]; [simpl in Hj; lia|].
    destruct xs as [|s xs]; [simpl in Hj; lia|].
    cbn [mixture] in *. destruct j as [|j].
    + cbn [nth]. destruct Hk as [-> | ->]; simpl; [right|left]; lra.
    + cbn [nth]. apply IH. simpl in Hj. lia.
Qed.

Lemma replay_indicators (q : R) (size : nat) (g : Replay.rng) :
  Forall (fun k => k = 0%Z \/ k = 1%Z) (fst (binom_rvs 1 q size g)).
Proof.
  simpl. apply Forall_forall. intros k Hk. apply in_map_iff in Hk.
  destruct Hk as [j [<- _]].
  destruct (Rlt_dec _ q); [right|left]; reflexivity.
Qed.

(** X8: when the indicators are 0 or 1, [two_norms] returns
    [num_samples] real numbers, and the entry at each position is the
    entry of [X_norm] or the entry of [X_spike] at that position. *)
Theorem two_norms_picks_a_draw
  {rng : Type} `{Sampler rng} `{!SamplerContract rng}
  (N : nat) (a p : R) (g : rng) :
  (forall q size g',
      Forall (fun k => k = 0%Z \/ k = 1%Z) (fst (binom_rvs 1 q size g'))) ->
  let d1 := norm_rvs 0 sigma_norm N g in
  let d2 := norm_rvs 0 (sigma_spike a) N (snd d1) in
  exists ys : list R,
    fst (two_norms N a p g) = asarray ys /\
    length ys = N /\
    forall j, (j < N)%nat ->
      nth j ys 0 = nth j (fst d1) 0 \/ nth j ys 0 = nth j (fst d2) 0.
Proof.
  intros Hind d1 d2. rewrite two_norms_run. cbn [fst].
  fold d1. fold d2.
  set (d3 := binom_rvs 1 (1 - p) N (snd d2)).
  exists (mixture (fst d3) (fst d1) (fst d2)).
  assert (Hlen : length (mixture (fst d3) (fst d1) (fst d2)) = N).
  { apply mixture_length.
    - apply binom_rvs_size.
    - apply norm_rvs_size.
    - apply norm_rvs_size. }
  split; [reflexivity|]. split; [exact Hlen|].
  intros j Hj. apply mixture_pick; [apply Hind|]. rewrite Hlen. exact Hj.
Qed.

Lemma two_norms_picks_a_draw_witness :
  exists ys : list R,
    fst (two_norms 2 3 (/ 2) (Replay.seed 0)) = asarray ys /\ length ys = 2%nat.
Proof.
  destruct (two_norms_picks_a_draw 2 3 (/ 2) (Replay.seed 0)
              replay_indicators) as [ys [Hys [Hlen _]]].
  exists ys. split; assumption.
Defined.

Lemma replicateM_S_state {S A : Type} (n : nat) (m : State S A) (s : S) :
  snd (replicateM (Datatypes.S n) m s) = snd (replicateM n m (snd (m s))).
Proof.
  cbn [replicateM]. unfold bind, ret. destruct (m s) as [x s1].
  cbn [snd]. destruct (replicateM n m s1) as [xs s2]. reflexivity.
Qed.

(** X9: a run of the driver asks the generator, for each of the [M]
    batches in turn, for [X_norm] with scale 1, then [X_spike] with scale
    [1 + a], then the indicators with probability [1 - p], each of size
    [N]: [3 * M] sampler calls and [3 * N * M] variates, nothing else. *)
Theorem driver_sampler_calls (N M : nat) (a p : R) (g : Replay.rng) :
  let g' := snd (get_efficiency_sample_sized N M a p g) in
  Replay.log g'
  = Replay.log g
    ++ concat (repeat [Replay.NormCall 0 1 N;
                       Replay.NormCall 0 (1 + a) N;
                       Replay.BinomCall 1 (1 - p) N] M) /\
  Replay.pos g' = (Replay.pos g + M * (3 * N))%nat.
Proof.
  intros g'. subst g'.
  assert (Hsnd : snd (get_efficiency_sample_sized N M a p g)
                 = snd (replicateM M (two_norms N a p) g)).
  { unfold get_efficiency_sample_sized, bind at 1.
    rewrite dispersion_estimates_run. reflexivity. }
  rewrite Hsnd. clear Hsnd. revert g.
  induction M as [|M IH]; intros g.
  - simpl. rewrite app_nil_r. split; [reflexivity|lia].
  - rewrite replicateM_S_state, two_norms_run. cbn [snd].
    destruct (IH (snd (binom_rvs 1 (1 - p) N
                   (snd (norm_rvs 0 (sigma_spike a) N
                      (snd (norm_rvs 0 sigma_norm N g)))))))
      as [IHlog IHpos].
    rewrite IHlog, IHpos.
    cbn [snd norm_rvs binom_rvs replay_sampler Replay.norm_rvs
         Replay.binom_rvs Replay.log Replay.pos repeat concat].
    split.
    + rewrite <- !app_assoc. reflexivity.
    + lia.
Qed.

(** On a batch of at least two real numbers both estimators are
    non-negative. *)
Lemma batch_dispersion (N : nat) (b : ndarray) :
  (2 <= N)%nat ->
  (exists xs : list R, b = asarray xs /\ length xs = N) ->
  (exists r : R, tstd b = Fin r /\ 0 <= r) /\
  (exists r : R, mad b = Fin r /\ 0 <= r).
Proof.
  intros HN [xs [-> Hlen]]. subst N.
  assert (Hne : xs <> []) by (destruct xs; [simpl in HN; lia|discriminate]).
  rewrite (tstd_fin xs HN), (mad_fin xs Hne).
  split.
  - eexists. split; [reflexivity|apply sqrt_pos].
  - eexists. split; [reflexivity|apply spec_mad_nonneg, Hne].
Qed.

(** X10: with batches of at least two samples, no entry of the STD array
    or of the MAD array of a run is negative or NaN: each is at least
    0. *)
Theorem dispersion_arrays_are_nonnegative
  {rng : Type} `{Sampler rng} `{!SamplerContract rng}
  (N M : nat) (a p : R) (g : rng) :
  (2 <= N)%nat ->
  let stds := fst (fst (dispersion_estimates N M a p g)) in
  let mads := snd (fst (dispersion_estimates N M a p g)) in
  Forall (fle (Fin 0)) stds /\ Forall (fle (Fin 0)) mads.
Proof.
  intros HN stds mads. subst stds mads.
  rewrite dispersion_estimates_run. cbn [fst snd].
  assert (Hb : Forall
    (fun b => exists xs : list R, b = asarray xs /\ length xs = N)
    (fst (replicateM M (two_norms N a p) g))).
  { apply replicateM_Forall. intros g'. apply two_norms_finite. }
  induction Hb as [|b bs Hb _ IH]; cbn [map].
  - split; constructor.
  - destruct (batch_dispersion N b HN Hb)
      as [[s [Hs Hs0]] [m [Hm Hm0]]].
    destruct IH as [IHstd IHmad].
    split; constructor; try assumption.
    + rewrite Hs. exact Hs0.
    + rewrite Hm. exact Hm0.
Qed.

Lemma dispersion_arrays_are_nonnegative_witness :
  (2 <= 2)%nat /\
  Forall (fle (Fin 0))
    (fst (fst (dispersion_estimates 2 3 3 (/ 2) (Replay.seed 0)))).
Proof.
  split; [lia|].
  apply (dispersion_arrays_are_nonnegative 2 3 3 (/ 2) (Replay.seed 0)). lia.
Defined.

(** ** The sweep *)

Lemma mapM_length {S A B : Type} (f : A -> State S B) (xs : list A) (s : S) :
  length (fst (mapM f xs s)) = length xs.
Proof.
  revert s; induction xs as [|x xs IH]; intros s; [reflexivity|].
  cbn [mapM]. unfold bind, ret. destruct (f x s) as [y s1].
  specialize (IH s1). destruct (mapM f xs s1) as [ys s2].
  simpl in *. congruence.
Qed.

Lemma mapM_cons_state {S A B : Type} (f : A -> State S B) (x : A)
  (xs : list A) (s : S) :
  snd (mapM f (x :: xs) s) = snd (mapM f xs (snd (f x s))).
Proof.
  cbn [mapM]. unfold bind, ret. destruct (f x s) as [y s1].
  cbn [snd]. destruct (mapM f xs s1) as [ys s2]. reflexivity.
Qed.

(** The entry at position [k] of a comprehension is [f] applied to the
    entry at position [k], run on the state the first [k] calls left. *)
Lemma mapM_nth {S A B : Type} (f : A -> State S B) (xs : list A) (s : S)
  (k : nat) (dA : A) (dB : B) :
  (k < length xs)%nat ->
  nth k (fst (mapM f xs s)) dB
  = fst (f (nth k xs dA) (snd (mapM f (firstn k xs) s))).
Proof.
  revert s k; induction xs as [|x xs IH]; intros s k Hk.
  - simpl in Hk. lia.
  - destruct k as [|k].
    + cbn [mapM firstn nth]. unfold bind, ret. cbn [snd].
      destruct (f x s) as [y s1]. destruct (mapM f xs s1) as [ys s2].
      reflexivity.
    + cbn [firstn nth]. rewrite mapM_cons_state.
      rewrite <- (IH (snd (f x s)) k) by (simpl in Hk; lia).
      cbn [mapM]. unfold bind, ret.
      destruct (f x s) as [y s1]. cbn [snd].
      destruct (mapM f xs s1) as [ys s2]. reflexivity.
Qed.

Lemma sweep_a_nth (k : nat) :
  (k < 21)%nat -> nth k sweep_a 0%Z = Z.of_nat k.
Proof.
  intros Hk. unfold sweep_a.
  change 0%Z with (Z.of_nat 0). rewrite map_nth, seq_nth by exact Hk.
  reflexivity.
Qed.

(** X11: the sweep plots 21 points, and for each [k] in 0, ..., 20 the
    point at position [k] pairs [a = k] with the result of
    [get_efficiency_sample(k, 0.01)] run on the generator state that the
    runs for [a = 0, ..., k - 1] left. *)
Theorem sweep_pairs_every_a {rng : Type} `{Sampler rng} (g : rng) (k : nat) :
  (k < 21)%nat ->
  length (fst (plot_points g)) = 21%nat /\
  nth k (fst (plot_points g)) (0%Z, NaN)
  = (Z.of_nat k,
     fst (get_efficiency_sample (IZR (Z.of_nat k)) sweep_p
            (snd (mapM (fun a_ => get_efficiency_sample (IZR a_) sweep_p)
                       (firstn k sweep_a) g)))).
Proof.
  intros Hk.
  assert (Hlen : length sweep_a = 21%nat) by reflexivity.
  assert (Hys : length (fst (efficiencies g)) = length sweep_a).
  { unfold efficiencies. apply mapM_length. }
  assert (Hnth : nth k (fst (efficiencies g)) NaN
    = fst (get_efficiency_sample (IZR (Z.of_nat k)) sweep_p
             (snd (mapM (fun a_ => get_efficiency_sample (IZR a_) sweep_p)
                        (firstn k sweep_a) g)))).
  { unfold efficiencies.
    rewrite (mapM_nth _ sweep_a g k 0%Z NaN) by (rewrite Hlen; exact Hk).
    rewrite (sweep_a_nth k Hk). reflexivity. }
  unfold plot_points, bind, ret.
  destruct (efficiencies g) as [ys g']. cbn [fst] in *.
  split.
  - rewrite length_combine, Hys, Hlen. reflexivity.
  - rewrite combine_nth by (symmetry; exact Hys).
    rewrite (sweep_a_nth k Hk), Hnth. reflexivity.
Qed.

Lemma sweep_pairs_every_a_witness :
  (3 < 21)%nat /\
  fst (nth 3 (fst (plot_points (Replay.seed 0))) (0%Z, NaN)) = 3%Z.
Proof.
  split; [lia|].
  destruct (sweep_pairs_every_a (Replay.seed 0) 3) as [_ Hnth]; [lia|].
  rewrite Hnth. reflexivity.
Defined.

Lemma driver_state {rng : Type} `{Sampler rng}
  (N M : nat) (a p : R) (g : rng) :
  snd (get_efficiency_sample_sized N M a p g)
  = snd (replicateM M (two_norms N a p) g).
Proof.
  unfold get_efficiency_sample_sized, bind at 1.
  rewrite dispersion_estimates_run. reflexivity.
Qed.

(** X12: on the logging generator the sweep makes
    [21 * (3 * 10000)] sampler calls: three for each of the 10000 batches
    of each of the 21 runs, every run continuing from the generator state
    the previous one left. *)
Theorem sweep_sampler_calls (g : Replay.rng) :
  length (Replay.log (snd (efficiencies g)))
  = (length (Replay.log g) + 21 * (3 * 10000))%nat.
Proof.
  unfold efficiencies.
  change 21%nat with (length sweep_a).
  generalize sweep_a. intros l. revert g.
  induction l as [|a_ l IH]; intros g.
  - simpl. lia.
  - rewrite mapM_cons_state, IH. cbn [length].
    unfold get_efficiency_sample at 1.
    rewrite driver_state, replay_calls.
    unfold num_sets_of_samples_default. lia.
Qed.

(** ** The sign of the result *)

Lemma finite_array (l : ndarray) :
  Forall (fun v => exists r : R, v = Fin r /\ 0 <= r) l ->
  exists rs : list R, l = asarray rs.
Proof.
  induction 1 as [|v l [r [-> _]] _ [rs ->]].
  - exists []. reflexivity.
  - exists (r :: rs). reflexivity.
Qed.

(** A quotient of two values that are NaN, plus infinity or a
    non-negative number is again one of these. *)
Lemma fdiv_nan_or_nonnegative (x y : Float64.t) :
  (x = NaN \/ x = PInf \/ exists r : R, x = Fin r /\ 0 <= r) ->
  (y = NaN \/ y = PInf \/ exists r : R, y = Fin r /\ 0 <= r) ->
  fdiv x y = NaN \/ fle (Fin 0) (fdiv x y).
Proof.
  intros [-> | [-> | [a [-> Ha]]]] [-> | [-> | [b [-> Hb]]]];
    try (left; reflexivity).
  - right. simpl. destruct (Rlt_dec b 0); [lra|]. exact I.
  - right. simpl. lra.
  - simpl. destruct (Req_dec_T b 0) as [Hz|Hnz].
    + destruct (Req_dec_T a 0) as [Ha0|Ha0].
      * left. rewrite Ha0. unfold sign.
        destruct (Rlt_dec 0 0); [lra|]. reflexivity.
      * right. rewrite sign_pos by lra. exact I.
    + right. simpl. unfold Rdiv. apply Rmult_le_pos; [exact Ha|].
      left. apply Rinv_0_lt_compat. lra.
Qed.

Lemma driver_value {rng : Type} `{Sampler rng}
  (N M : nat) (a p : R) (g : rng) :
  fst (get_efficiency_sample_sized N M a p g)
  = fdiv (get_efficiency
            (map tstd (fst (replicateM M (two_norms N a p) g))))
         (get_efficiency
            (map mad (fst (replicateM M (two_norms N a p) g)))).
Proof.
  unfold get_efficiency_sample_sized, bind at 1.
  rewrite dispersion_estimates_run. reflexivity.
Qed.

(** X13: [get_efficiency_sample] never returns a negative number or
    minus infinity: its result is NaN, or it is at least 0 (plus infinity
    included).  The same holds for every batch size of at least two. *)
Theorem get_efficiency_sample_never_negative
  {rng : Type} `{Sampler rng} `{!SamplerContract rng}
  (a p : R) (g : rng) :
  (fst (get_efficiency_sample a p g) = NaN \/
   fle (Fin 0) (fst (get_efficiency_sample a p g))) /\
  forall N M : nat, (2 <= N)%nat ->
    fst (get_efficiency_sample_sized N M a p g) = NaN \/
    fle (Fin 0) (fst (get_efficiency_sample_sized N M a p g)).
Proof.
  assert (Hsized : forall N M : nat, (2 <= N)%nat ->
    fst (get_efficiency_sample_sized N M a p g) = NaN \/
    fle (Fin 0) (fst (get_efficiency_sample_sized N M a p g))).
  { intros N M HN. rewrite driver_value.
    assert (Hb : Forall
      (fun b => exists xs : list R, b = asarray xs /\ length xs = N)
      (fst (replicateM M (two_norms N a p) g))).
    { apply replicateM_Forall. intros g'. apply two_norms_finite. }
    set (bs := fst (replicateM M (two_norms N a p) g)) in *.
    assert (Hfin : Forall (fun v => exists r : R, v = Fin r /\ 0 <= r)
                     (map tstd bs) /\
                   Forall (fun v => exists r : R, v = Fin r /\ 0 <= r)
                     (map mad bs)).
    { clearbody bs. induction Hb as [|b l Hb _ IH]; cbn [map].
      - split; constructor.
      - destruct (batch_dispersion N b HN Hb) as [Hstd Hmad].
        destruct IH as [IH1 IH2]. split; constructor; assumption. }
    destruct Hfin as [Hstds Hmads].
    destruct (finite_array _ Hstds) as [ss ->].
    destruct (finite_array _ Hmads) as [ms ->].
    apply fdiv_nan_or_nonnegative; apply get_efficiency_cases. }
  split; [|exact Hsized].
  apply Hsized. unfold num_samples_default. apply Nat.leb_le. reflexivity.
Qed.

Lemma get_efficiency_sample_never_negative_witness :
  (2 <= 2)%nat /\
  (fst (get_efficiency_sample_sized 2 3 3 (/ 2) (Replay.seed 0)) = NaN \/
   fle (Fin 0)
       (fst (get_efficiency_sample_sized 2 3 3 (/ 2) (Replay.seed 0)))).
Proof.
  split; [lia|].
  apply (get_efficiency_sample_never_negative 3 (/ 2) (Replay.seed 0)). lia.
Defined.
